(** * Verification of the activity board front-end (src/static/app.js)

    Shallow embedding of the three handlers of [app.js]:
    [fetchActivities], [handleDelete] and the submit handler of the
    sign-up form.  The DOM nodes they touch are fields of a record; the
    JavaScript [try]/[catch] is modelled by a small state monad with
    exceptions that also records the outward effects (remote calls,
    timers, form reset, console records).  A timed world on top of it
    runs the [setTimeout] callbacks. *)

From Stdlib Require Import String Ascii List ZArith Bool Lia.
Import ListNotations.
Open Scope string_scope.

(** ** Data received from the server *)

(** The details of one activity, as [GET /activities] sends them. *)
Record activity := mkActivity {
  description : string;
  schedule : string;
  max_participants : Z;
  participants : list string
}.

(** One pair of [Object.entries(activities)], in the order
    [Object.entries] yields them.  [Some d] is a details object with the
    fields above; [None] stands for details on which
    [details.participants.length] throws a TypeError (details, or its
    [participants] field, [null] or [undefined]). *)
Definition entry := (string * option activity)%type.

(** The result of [response.json()] on the catalog response. *)
Inductive catalog_body :=
| CUnparsable                (** [response.json()] rejects *)
| CNull                      (** the JSON value [null]: [Object.entries] throws *)
| CEntries (es : list entry) (** any other JSON value, through [Object.entries] *).

(** The result of [response.json()] on a sign-up or unregister response. *)
Inductive result_body :=
| RUnparsable                (** [response.json()] rejects *)
| RNull                      (** [null]: reading [result.message] throws *)
| RObj (message : option string) (detail : option string).

(** What [fetch] gives back. *)
Inductive response (B : Type) :=
| NetworkError                       (** the [fetch] promise rejects *)
| Response (status : Z) (body : B).
Arguments NetworkError {B}.
Arguments Response {B} status body.

(** [response.ok]: status in the range 200-299. *)
Definition ok (status : Z) : bool := ((200 <=? status) && (status <=? 299))%Z.

(** ** The rendered tree *)

(** A delete button: its [data-activity] and [data-email] attributes. *)
Record delete_btn := mkBtn { data_activity : string; data_email : string }.

(** One [li] of a participants list: the email [span] and the button. *)
Record participant_row := mkRow { row_email : string; row_button : delete_btn }.

(** The participants section below the "Participants:" label. *)
Inductive participants_view :=
| PList (rows : list participant_row)   (** [ul.participants-list] *)
| PEmpty (placeholder : string)          (** [p.no-participants] *).

(** An [.activity-card]: title, description, the text node after
    "Schedule:", the text node after "Availability:", participants. *)
Record card := mkCard {
  card_title : string;
  card_description : string;
  card_schedule : string;
  card_availability : string;
  card_participants : participants_view
}.

(** A child of [#activities-list]. *)
Inductive list_child :=
| ECard (c : card)
| EFailureNotice   (** "<p>Failed to load activities. Please try again later.</p>" *)
| EOther (html : string) (** whatever the page had before, e.g. a loading notice *).

(** An [option] of the [#activity] select, after the kept placeholder. *)
Record select_option := mkOption { opt_value : string; opt_label : string }.

(** [#message]: its text and its class list. *)
Record message := mkMessage { msg_text : string; msg_classes : list string }.

Definition msg_visible (m : message) : bool :=
  negb (existsb (String.eqb "hidden") (msg_classes m)).

Record state := mkState {
  activities_list : list list_child;
  select_options : list select_option;
  message_div : message
}.

(** Outward effects of a handler, in the order they happen. *)
Inductive effect :=
| ERemote (method : string) (activity_name email : string)
    (** [fetch] with the URL built from [encodeURIComponent] of both;
        [GET /activities] is [ERemote "GET" "" ""] *)
| ELoad                (** a call of [fetchActivities()] *)
| EReset               (** [signupForm.reset()] *)
| ETimer (ms : Z)      (** [setTimeout] of the hide callback *)
| ELog (what : string) (** [console.error] *).

(** ** A state monad with exceptions and an effect log *)

Inductive outcome (A : Type) := Ok (a : A) | Throw (err : string).
Arguments Ok {A} a.
Arguments Throw {A} err.

Definition M (A : Type) := state -> outcome A * state * list effect.

Definition ret {A} (a : A) : M A := fun s => (Ok a, s, []).

Definition bind {A B} (m : M A) (f : A -> M B) : M B :=
  fun s =>
    match m s with
    | (Ok a, s1, e1) => let '(r, s2, e2) := f a s1 in (r, s2, (e1 ++ e2)%list)
    | (Throw x, s1, e1) => (Throw x, s1, e1)
    end.

Notation "x <- m ;; k" := (bind m (fun x => k))
  (at level 61, m at next level, right associativity).
Notation "m ;;; k" := (bind m (fun _ => k))
  (at level 61, right associativity).

Definition throw {A} (err : string) : M A := fun s => (Throw err, s, []).

(** [try { m } catch (error) { h error }] *)
Definition try_catch {A} (m : M A) (h : string -> M A) : M A :=
  fun s =>
    match m s with
    | (Ok a, s1, e1) => (Ok a, s1, e1)
    | (Throw x, s1, e1) => let '(r, s2, e2) := h x s1 in (r, s2, (e1 ++ e2)%list)
    end.

Definition emit (e : effect) : M unit := fun s => (Ok tt, s, [e]).

Definition modify (f : state -> state) : M unit := fun s => (Ok tt, f s, []).

Fixpoint forEach {A} (f : A -> M unit) (l : list A) : M unit :=
  match l with
  | [] => ret tt
  | x :: l' => f x ;;; forEach f l'
  end.

(** DOM updates *)

Definition set_list (l : list list_child) : M unit :=
  modify (fun s => mkState l (select_options s) (message_div s)).

Definition append_list (c : list_child) : M unit :=
  modify (fun s => mkState (activities_list s ++ [c])%list (select_options s) (message_div s)).

Definition set_options (o : list select_option) : M unit :=
  modify (fun s => mkState (activities_list s) o (message_div s)).

Definition append_option (o : select_option) : M unit :=
  modify (fun s => mkState (activities_list s) (select_options s ++ [o])%list (message_div s)).

Definition set_message (f : message -> message) : M unit :=
  modify (fun s => mkState (activities_list s) (select_options s) (f (message_div s))).

(** [messageDiv.textContent = t] *)
Definition set_text (t : string) : M unit :=
  set_message (fun m => mkMessage t (msg_classes m)).

(** [messageDiv.className = c]: the class list becomes [c] alone. *)
Definition set_className (c : string) : M unit :=
  set_message (fun m => mkMessage (msg_text m) [c]).

Definition class_remove (c : string) (l : list string) : list string :=
  filter (fun x => negb (String.eqb c x)) l.

Definition class_add (c : string) (l : list string) : list string :=
  if existsb (String.eqb c) l then l else (l ++ [c])%list.

(** [messageDiv.classList.remove("hidden")] *)
Definition show_message : M unit :=
  set_message (fun m => mkMessage (msg_text m) (class_remove "hidden" (msg_classes m))).

(** The [setTimeout] callback: [messageDiv.classList.add("hidden")]. *)
Definition hide (m : message) : message :=
  mkMessage (msg_text m) (class_add "hidden" (msg_classes m)).

(** ** fetchActivities *)

(** *** JavaScript numbers

    The numbers this code computes with are integers: JSON integers
    ([max_participants]) and their differences with list lengths.  A
    JavaScript number holding an integer is a binary64 value: an integer
    [z] that binary64 represents, or an infinity. *)
Inductive jsnum :=
| JFin (z : Z)
| JInf
| JNegInf.

(** Rounding a positive integer to the nearest binary64 value, ties to
    even; [None] when it rounds past the largest finite value. *)
Definition round_pos (a : Z) : option Z :=
  if (a <? 2 ^ 53)%Z then Some a else
  let ulp := (2 ^ (Z.log2 a - 52))%Z in
  let q := (a / ulp)%Z in
  let r := (a mod ulp)%Z in
  let q' := if (2 * r <? ulp)%Z then q
            else if (ulp <? 2 * r)%Z then (q + 1)%Z
            else if Z.even q then q else (q + 1)%Z in
  if (2 ^ 1024 <=? q' * ulp)%Z then None else Some (q' * ulp)%Z.

(** The binary64 value of an exact integer: what [JSON.parse] makes of an
    integer literal, and what [-] makes of the exact difference of two
    binary64 values. *)
Definition js_of_int (z : Z) : jsnum :=
  if (z =? 0)%Z then JFin 0
  else if (0 <? z)%Z then
    match round_pos z with Some v => JFin v | None => JInf end
  else
    match round_pos (- z) with Some v => JFin (- v) | None => JNegInf end.

(** [x - n] for a list length [n]. *)
Definition js_sub_nat (x : jsnum) (n : nat) : jsnum :=
  match x with
  | JFin a => js_of_int (a - Z.of_nat n)
  | JInf => JInf
  | JNegInf => JNegInf
  end.

(** Decimal digits of a positive integer; [fuel] bounds the number of
    digits. *)
Definition digit (d : Z) : string :=
  String (Ascii.ascii_of_nat (48 + Z.to_nat d)) "".

Fixpoint digits_fuel (fuel : nat) (z : Z) : string :=
  match fuel with
  | O => ""
  | S f => if (z <? 10)%Z then digit z else digits_fuel f (z / 10) ++ digit (z mod 10)
  end.

Fixpoint ndigits_fuel (fuel : nat) (z : Z) : Z :=
  match fuel with
  | O => 0
  | S f => if (z <? 10)%Z then 1 else (1 + ndigits_fuel f (z / 10))%Z
  end.

Definition digit_fuel (z : Z) : nat := S (Z.to_nat (Z.log2 z)).

Definition decimal_pos (z : Z) : string := digits_fuel (digit_fuel z) z.
Definition ndigits (z : Z) : Z := ndigits_fuel (digit_fuel z) z.

(** The plain decimal writing of an integer. *)
Definition decimal (z : Z) : string :=
  if (z =? 0)%Z then "0"
  else if (z <? 0)%Z then "-" ++ decimal_pos (- z)
  else decimal_pos z.

Fixpoint zeros (n : nat) : string :=
  match n with O => "" | S n' => "0" ++ zeros n' end.

(** Number::toString, step 5, for a positive integer [x] with [D]
    digits: the [s] of [k] digits, [k] fixed, with [s * 10^(n-k)] rounding
    to [x] and closest to it (the even [s] on a tie), as [(s, n)].
    Candidates with a fractional [s * 10^(n-k)] never have fewer digits
    than [x] itself, so only the integer ones are tried. *)
Definition cand_ok (x v : Z) : bool :=
  match round_pos v with Some w => (w =? x)%Z | None => false end.

(** [s] written with [k] digits: [10^k] becomes [10^(k-1)] with one more
    digit before the point. *)
Definition cand_norm (D k s : Z) : Z * Z :=
  if (s =? 10 ^ k)%Z then (10 ^ (k - 1), D + 1)%Z else (s, D).

Definition candidate (x D k : Z) : option (Z * Z) :=
  let p := (10 ^ (D - k))%Z in
  let lo := (x / p)%Z in
  let hi := (lo + 1)%Z in
  let lo_ok := cand_ok x (lo * p) in
  let hi_ok := if (x mod p =? 0)%Z then false else cand_ok x (hi * p) in
  match lo_ok, hi_ok with
  | true, true =>
      let dlo := (x - lo * p)%Z in
      let dhi := (hi * p - x)%Z in
      if (dlo <? dhi)%Z then Some (cand_norm D k lo)
      else if (dhi <? dlo)%Z then Some (cand_norm D k hi)
      else if Z.even lo then Some (cand_norm D k lo) else Some (cand_norm D k hi)
  | true, false => Some (cand_norm D k lo)
  | false, true => Some (cand_norm D k hi)
  | false, false => None
  end.

(** The smallest [k], from 1 up to [D]. *)
Fixpoint shortest_from (x D : Z) (ks : list Z) : option (Z * Z * Z) :=
  match ks with
  | [] => None
  | k :: ks' =>
      match candidate x D k with
      | Some (s, n) => Some (s, k, n)
      | None => shortest_from x D ks'
      end
  end.

Definition shortest (x : Z) : Z * Z * Z :=
  let D := ndigits x in
  match shortest_from x D (map Z.of_nat (seq 1 (Z.to_nat D))) with
  | Some t => t
  | None => (x, D, D)
  end.

(** Number::toString, steps 6-10, for a positive integer. *)
Definition js_pos_to_string (x : Z) : string :=
  let '(s, k, n) := shortest x in
  let ds := decimal_pos s in
  if (n <=? 21)%Z then ds ++ zeros (Z.to_nat (n - k))
  else if (k =? 1)%Z then ds ++ "e+" ++ decimal_pos (n - 1)
  else substring 0 1 ds ++ "." ++ substring 1 (Z.to_nat (k - 1)) ds ++ "e+" ++ decimal_pos (n - 1).

(** Number::toString on the numbers of [jsnum]. *)
Definition js_number_to_string (x : jsnum) : string :=
  match x with
  | JFin z =>
      if (z =? 0)%Z then "0"
      else if (z <? 0)%Z then "-" ++ js_pos_to_string (- z)
      else js_pos_to_string z
  | JInf => "Infinity"
  | JNegInf => "-Infinity"
  end.

Definition no_participants_text : string :=
  "No participants yet - be the first to sign up!".

Definition failure_notice_text : string :=
  "Failed to load activities. Please try again later.".

Definition participant_row_of (name email : string) : participant_row :=
  mkRow email (mkBtn name email).

(** The card built for [(name, details)], lines 23-94. *)
Definition card_of (name : string) (details : activity) : card :=
  let spotsLeft := js_sub_nat (js_of_int (max_participants details))
                             (length (participants details)) in
  mkCard name
         (description details)
         (" " ++ schedule details)
         (" " ++ js_number_to_string spotsLeft ++ " spots left")
         (if Nat.ltb 0 (length (participants details))
          then PList (map (participant_row_of name) (participants details))
          else PEmpty no_participants_text).

(** The body of the [forEach] callback on one entry. *)
Definition render_entry (e : entry) : M unit :=
  let '(name, details) := e in
  match details with
  | None => throw "TypeError"
  | Some d =>
      append_list (ECard (card_of name d)) ;;;
      append_option (mkOption name name)
  end.

Definition await_fetch {B} (r : response B) : M (Z * B) :=
  match r with
  | NetworkError => throw "TypeError: Failed to fetch"
  | Response st b => ret (st, b)
  end.

Definition catalog_json (b : catalog_body) : M catalog_body :=
  match b with
  | CUnparsable => throw "SyntaxError"
  | _ => ret b
  end.

Definition object_entries (b : catalog_body) : M (list entry) :=
  match b with
  | CEntries es => ret es
  | _ => throw "TypeError"
  end.

(** [fetchActivities()], lines 8-107; the argument is what the
    [GET /activities] request comes back with. *)
Definition fetchActivities (r : response catalog_body) : M unit :=
  try_catch
    (emit (ERemote "GET" "" "") ;;;
     resp <- await_fetch r ;;
     activities <- catalog_json (snd resp) ;;
     set_list [] ;;;
     set_options [] ;;;
     es <- object_entries activities ;;
     forEach render_entry es)
    (fun _ =>
       set_list [EFailureNotice] ;;;
       emit (ELog "Error fetching activities:")).

(** ** The mutating handlers *)

Definition result_json (b : result_body) : M result_body :=
  match b with
  | RUnparsable => throw "SyntaxError"
  | _ => ret b
  end.

(** [result.message]; an absent field is [undefined], which the
    [textContent] setter turns into the empty string. *)
Definition field_message (b : result_body) : M string :=
  match b with
  | RObj (Some m) _ => ret m
  | RObj None _ => ret ""
  | _ => throw "TypeError"
  end.

(** [result.detail || fallback]: an absent or empty detail is falsy. *)
Definition field_detail_or (b : result_body) (fallback : string) : M string :=
  match b with
  | RObj _ (Some d) => ret (if String.eqb d "" then fallback else d)
  | RObj _ None => ret fallback
  | _ => throw "TypeError"
  end.

(** [handleDelete(event)], lines 110-150: [btn] is [event.target],
    [confirmed] the answer to [confirm(...)], [r] what the
    [DELETE] request comes back with. *)
Definition handleDelete (btn : delete_btn) (confirmed : bool)
           (r : response result_body) : M unit :=
  let activityName := data_activity btn in
  let email := data_email btn in
  if negb confirmed then ret tt else
  try_catch
    (emit (ERemote "DELETE" activityName email) ;;;
     resp <- await_fetch r ;;
     result <- result_json (snd resp) ;;
     if ok (fst resp) then
       m <- field_message result ;;
       set_text m ;;;
       set_className "success" ;;;
       show_message ;;;
       emit ELoad ;;;
       emit (ETimer 3000)
     else
       d <- field_detail_or result "Failed to unregister" ;;
       set_text d ;;;
       set_className "error" ;;;
       show_message)
    (fun _ =>
       set_text "Failed to unregister. Please try again." ;;;
       set_className "error" ;;;
       show_message ;;;
       emit (ELog "Error unregistering:")).

(** The submit handler of [#signup-form], lines 153-191: [email] and
    [activity] are the values of the two form fields, [r] what the
    [POST] request comes back with. *)
Definition submitSignup (email activity : string)
           (r : response result_body) : M unit :=
  try_catch
    (emit (ERemote "POST" activity email) ;;;
     resp <- await_fetch r ;;
     result <- result_json (snd resp) ;;
     (if ok (fst resp) then
        m <- field_message result ;;
        set_text m ;;;
        set_className "success" ;;;
        emit EReset ;;;
        emit ELoad
      else
        d <- field_detail_or result "An error occurred" ;;
        set_text d ;;;
        set_className "error") ;;;
     show_message ;;;
     emit (ETimer 5000))
    (fun _ =>
       set_text "Failed to sign up. Please try again." ;;;
       set_className "error" ;;;
       show_message ;;;
       emit (ELog "Error signing up:")).

(** Running a handler from a state. *)
Definition run (m : M unit) (s : state) : state * list effect :=
  let '(_, s', es) := m s in (s', es).

Definition final (m : M unit) (s : state) : state := fst (run m s).
Definition effects (m : M unit) (s : state) : list effect := snd (run m s).

Definition is_load (e : effect) : bool :=
  match e with ELoad => true | _ => false end.
Definition is_reset (e : effect) : bool :=
  match e with EReset => true | _ => false end.
Definition is_remote (e : effect) : bool :=
  match e with ERemote _ _ _ => true | _ => false end.
Definition is_log (e : effect) : bool :=
  match e with ELog _ => true | _ => false end.

(** The delays of the [setTimeout] calls among the effects. *)
Fixpoint timers (es : list effect) : list Z :=
  match es with
  | [] => []
  | ETimer ms :: es' => ms :: timers es'
  | _ :: es' => timers es'
  end.

(** ** The page over time

    The user actions run to completion when their response arrives; the
    hide callbacks armed by [setTimeout] wait in [pending] with the time
    they are due.  A catalog reload started by [ELoad] touches only the
    list and the select, never [#message], so it is not replayed here. *)

Inductive user_action :=
| Submit (email activity : string) (r : response result_body)
| ClickDelete (btn : delete_btn) (confirmed : bool) (r : response result_body).

Definition handler_of (u : user_action) : M unit :=
  match u with
  | Submit e a r => submitSignup e a r
  | ClickDelete b c r => handleDelete b c r
  end.

Record world := mkWorld {
  now : Z;
  page : state;
  pending : list Z   (** due times of armed hide callbacks *)
}.

Definition act (u : user_action) (w : world) : world :=
  let '(s', es) := run (handler_of u) (page w) in
  mkWorld (now w) s' (pending w ++ map (fun ms => now w + ms)%Z (timers es))%list.

Definition hide_page (s : state) : state :=
  mkState (activities_list s) (select_options s) (hide (message_div s)).

(** Let time pass until [t]: every callback due by then runs. *)
Definition advance (t : Z) (w : world) : world :=
  let due := filter (fun d => d <=? t)%Z (pending w) in
  mkWorld t
          (fold_left (fun s _ => hide_page s) due (page w))
          (filter (fun d => t <? d)%Z (pending w)).

(** ** Catalogs and runs of catalog loads *)

(** A catalog whose details are all well formed, in
    [Object.entries] order, and the body that carries it. *)
Definition catalog := list (string * activity).

Definition catalog_entries (cat : catalog) : list entry :=
  map (fun p => (fst p, Some (snd p))) cat.

Definition cards_of (cat : catalog) : list list_child :=
  map (fun p => ECard (card_of (fst p) (snd p))) cat.

Definition options_of (cat : catalog) : list select_option :=
  map (fun p => mkOption (fst p) (fst p)) cat.

(** The delete buttons of a participants section, in document order. *)
Definition delete_controls (v : participants_view) : list delete_btn :=
  match v with
  | PList rows => map row_button rows
  | PEmpty _ => []
  end.

(** Successive, non-overlapping calls of [fetchActivities]. *)
Fixpoint run_fetches (rs : list (response catalog_body)) (s : state) : state :=
  match rs with
  | [] => s
  | r :: rs' => run_fetches rs' (final (fetchActivities r) s)
  end.

(** The loads that end in the [catch] branch: the request rejects, the
    body does not parse, is [null], or has an entry whose card
    construction throws. *)
Definition catalog_load_fails (r : response catalog_body) : bool :=
  match r with
  | NetworkError => true
  | Response _ CUnparsable => true
  | Response _ CNull => true
  | Response _ (CEntries es) => existsb (fun e => match snd e with None => true | Some _ => false end) es
  end.

(** The unregister requests that reach the success branch. *)
Definition unregister_succeeds (r : response result_body) : bool :=
  match r with
  | Response st (RObj _ _) => ok st
  | _ => false
  end.

(** The sign-up responses whose body reaches the [if (response.ok)]
    test without throwing: a JSON value other than [null]. *)
Definition signup_reaches_branch (r : response result_body) : bool :=
  match r with
  | Response _ (RObj _ _) => true
  | _ => false
  end.

Definition count (p : effect -> bool) (es : list effect) : nat :=
  length (filter p es).

Definition page0 : state := mkState [EOther "Loading activities..."] [] (mkMessage "" ["hidden"]).

Definition chess : activity :=
  mkActivity "Learn strategies and compete in chess tournaments"
             "Fridays, 3:30 PM - 5:00 PM" 10 ["a@x.com"].

(** ** Unit checks against the scenarios of the specification *)

Example chess_card :
  activities_list (final (fetchActivities (Response 200 (CEntries [("Chess Club", Some chess)]))) page0)
  = [ECard (mkCard "Chess Club" (description chess) (" " ++ schedule chess) " 9 spots left"
                   (PList [mkRow "a@x.com" (mkBtn "Chess Club" "a@x.com")]))].
Proof. reflexivity. Qed.

Example over_capacity_card :
  card_availability (card_of "Gym" (mkActivity "" "" 1 ["a"; "b"; "c"])) = " -2 spots left".
Proof. reflexivity. Qed.

Example signup_success_message :
  message_div (final (submitSignup "e@x.com" "Chess Club" (Response 200 (RObj (Some "Signed up!") None))) page0)
  = mkMessage "Signed up!" ["success"].
Proof. reflexivity. Qed.

Example unregister_failure_message :
  run (handleDelete (mkBtn "Chess Club" "e@x.com") true (Response 400 (RObj None (Some "Not registered")))) page0
  = (mkState (activities_list page0) [] (mkMessage "Not registered" ["error"]),
     [ERemote "DELETE" "Chess Club" "e@x.com"]).
Proof. reflexivity. Qed.

(** ** Lemmas on the monad *)

Lemma forEach_render_catalog (cat : catalog) (s : state) :
  forEach render_entry (catalog_entries cat) s =
  (Ok tt, mkState (activities_list s ++ cards_of cat)%list
                  (select_options s ++ options_of cat)%list
                  (message_div s), []).
Proof.
  revert s; induction cat as [| [n d] cat IH]; intros s.
  - destruct s; cbn; rewrite !app_nil_r; reflexivity.
  - cbn [catalog_entries map forEach fst snd].
    unfold bind at 1; cbn.
    rewrite IH; cbn.
    rewrite <- !app_assoc; reflexivity.
Qed.

Lemma fetch_catalog_run (st : Z) (cat : catalog) (s : state) :
  run (fetchActivities (Response st (CEntries (catalog_entries cat)))) s =
  (mkState (cards_of cat) (options_of cat) (message_div s), [ERemote "GET" "" ""]).
Proof.
  unfold run, fetchActivities, try_catch, bind; cbn.
  rewrite forEach_render_catalog; reflexivity.
Qed.

Lemma card_of_controls (name : string) (d : activity) :
  delete_controls (card_participants (card_of name d)) = map (mkBtn name) (participants d) /\
  (participants d = [] -> card_participants (card_of name d) = PEmpty no_participants_text).
Proof.
  unfold card_of; cbn.
  destruct (participants d) as [| e es]; cbn.
  - split; reflexivity.
  - split; [| discriminate].
    rewrite map_map; reflexivity.
Qed.

Lemma Forall2_cards_of (P : string * activity -> list_child -> Prop) (cat : catalog) :
  (forall p, P p (ECard (card_of (fst p) (snd p)))) ->
  Forall2 P cat (cards_of cat).
Proof.
  intros HP; induction cat as [| p cat IH]; constructor; auto.
Qed.

(** ** Rendering *)

(** C1: on the success path of [fetchActivities], a catalog of N
    activities yields exactly N cards in [#activities-list] and exactly N
    options after the placeholder of [#activity], both in the order of
    the mapping, each option's value and label the activity name. *)
Theorem fetchActivities_renders_catalog (st : Z) (cat : catalog) (s : state) :
  ok st = true ->
  let s' := final (fetchActivities (Response st (CEntries (catalog_entries cat)))) s in
  length (activities_list s') = length cat /\
  length (select_options s') = length cat /\
  activities_list s' = map (fun p => ECard (card_of (fst p) (snd p))) cat /\
  select_options s' = map (fun p => mkOption (fst p) (fst p)) cat /\
  (forall i name, nth_error (map fst cat) i = Some name ->
     nth_error (map card_title (map (fun p => card_of (fst p) (snd p)) cat)) i = Some name /\
     nth_error (select_options s') i = Some (mkOption name name)).
Proof.
  intros _ s'; subst s'.
  unfold final; rewrite fetch_catalog_run; cbn.
  unfold cards_of, options_of; rewrite !length_map.
  do 4 (split; [reflexivity |]).
  intros i name Hi; split.
  - rewrite map_map; exact Hi.
  - rewrite nth_error_map in Hi |- *.
    destruct (nth_error cat i); cbn in *; congruence.
Qed.

Lemma fetchActivities_renders_catalog_witness :
  ok 200 = true /\
  length (activities_list (final (fetchActivities (Response 200 (CEntries (catalog_entries [("Chess Club", chess)])))) page0)) = 1%nat.
Proof.
  split; [reflexivity |].
  apply (fetchActivities_renders_catalog 200 [("Chess Club", chess)] page0); reflexivity.
Defined.

(** C5: every rendered card has, for an activity without participants,
    the fixed placeholder and no delete button, and otherwise one delete
    button per participant, the i-th tagged with the activity name and
    the i-th email, in server order. *)
Theorem rendered_delete_controls (st : Z) (cat : catalog) (s : state) :
  ok st = true ->
  Forall2 (fun p ch => exists c, ch = ECard c /\
             card_title c = fst p /\
             delete_controls (card_participants c) = map (mkBtn (fst p)) (participants (snd p)) /\
             (participants (snd p) = [] -> card_participants c = PEmpty no_participants_text))
    cat (activities_list (final (fetchActivities (Response st (CEntries (catalog_entries cat)))) s)).
Proof.
  intros _; unfold final; rewrite fetch_catalog_run; cbn.
  apply Forall2_cards_of; intros [n d]; cbn.
  exists (card_of n d); split; [reflexivity |]; split; [reflexivity |].
  apply card_of_controls.
Qed.

Lemma rendered_delete_controls_witness :
  ok 200 = true /\
  Forall2 (fun p ch => exists c, ch = ECard c /\
             card_title c = fst p /\
             delete_controls (card_participants c) = map (mkBtn (fst p)) (participants (snd p)) /\
             (participants (snd p) = [] -> card_participants c = PEmpty no_participants_text))
    [("Chess Club", chess)]
    (activities_list (final (fetchActivities (Response 200 (CEntries (catalog_entries [("Chess Club", chess)])))) page0)).
Proof.
  split; [reflexivity |].
  apply (rendered_delete_controls 200 [("Chess Club", chess)] page0); reflexivity.
Defined.

(** ** JavaScript numbers in the availability line *)

Lemma round_pos_small (a : Z) : (a < 2 ^ 53)%Z -> round_pos a = Some a.
Proof.
  intros H; unfold round_pos; rewrite (proj2 (Z.ltb_lt _ _) H); reflexivity.
Qed.

Lemma round_pos_large (a v : Z) :
  (2 ^ 53 <= a)%Z -> round_pos a = Some v -> (2 ^ 53 <= v)%Z.
Proof.
  intros Ha Hr; unfold round_pos in Hr.
  destruct (Z.ltb_spec a (2 ^ 53)) as [Hlt | _]; [lia |].
  set (e := Z.log2 a) in *.
  assert (Hpos : (0 < a)%Z) by lia.
  destruct (Z.log2_spec a Hpos) as [He _]; fold e in He.
  assert (He53 : (53 <= e)%Z).
  { rewrite <- (Z.log2_pow2 53) by lia. apply Z.log2_le_mono; exact Ha. }
  set (ulp := (2 ^ (e - 52))%Z) in *.
  assert (Hulp : (0 < ulp)%Z) by (apply Z.pow_pos_nonneg; lia).
  assert (Hsplit : (2 ^ e = 2 ^ 52 * ulp)%Z).
  { unfold ulp; rewrite <- Z.pow_add_r by lia; f_equal; lia. }
  assert (Hq : (2 ^ 52 <= a / ulp)%Z).
  { apply Z.div_le_lower_bound; [exact Hulp | lia]. }
  assert (H53 : (2 ^ 53 <= 2 ^ e)%Z) by (apply Z.pow_le_mono_r; lia).
  set (q := (a / ulp)%Z) in *.
  set (q' := if (2 * (a mod ulp) <? ulp)%Z then q
             else if (ulp <? 2 * (a mod ulp))%Z then (q + 1)%Z
             else if Z.even q then q else (q + 1)%Z) in *.
  assert (Hq' : (q <= q')%Z).
  { unfold q'; destruct (_ <? _)%Z; [lia |]; destruct (_ <? _)%Z; [lia |].
    destruct (Z.even q); lia. }
  destruct (2 ^ 1024 <=? q' * ulp)%Z; [discriminate |].
  injection Hr as <-. nia.
Qed.

Lemma cand_ok_exact (x v : Z) :
  (0 < x < 2 ^ 53)%Z -> cand_ok x v = true -> v = x.
Proof.
  intros Hx H; unfold cand_ok in H.
  destruct (Z.ltb_spec v (2 ^ 53)) as [Hv | Hv].
  - rewrite round_pos_small in H by exact Hv; apply Z.eqb_eq in H; exact H.
  - destruct (round_pos v) as [w |] eqn:Hr; [| discriminate].
    apply Z.eqb_eq in H; subst w.
    pose proof (round_pos_large v x Hv Hr); lia.
Qed.

Lemma cand_norm_value (D k c s n : Z) :
  (1 <= k <= D)%Z -> (0 < c)%Z -> cand_norm D k c = (s, n) ->
  (s * 10 ^ (n - k) = c * 10 ^ (D - k))%Z /\ (0 < s)%Z /\ (k <= n <= D + 1)%Z.
Proof.
  intros Hk Hc; unfold cand_norm.
  destruct (Z.eqb_spec c (10 ^ k)) as [-> | _]; intros [= <- <-].
  - split; [| split; [apply Z.pow_pos_nonneg; lia | lia]].
    rewrite <- !Z.pow_add_r by lia; f_equal; lia.
  - split; [reflexivity | lia].
Qed.

Lemma candidate_spec (x D k s n : Z) :
  (1 <= k <= D)%Z -> (10 ^ (D - 1) <= x)%Z -> candidate x D k = Some (s, n) ->
  exists c, (0 < c)%Z /\ cand_ok x (c * 10 ^ (D - k)) = true /\ cand_norm D k c = (s, n).
Proof.
  intros Hk Hx; unfold candidate.
  set (p := (10 ^ (D - k))%Z).
  assert (Hp : (0 < p)%Z) by (apply Z.pow_pos_nonneg; lia).
  assert (Hlo : (1 <= x / p)%Z).
  { apply Z.div_le_lower_bound; [exact Hp |].
    enough (p <= 10 ^ (D - 1))%Z by lia.
    apply Z.pow_le_mono_r; lia. }
  destruct (cand_ok x (x / p * p)) eqn:Hl;
  destruct (x mod p =? 0)%Z;
  try destruct (cand_ok x ((x / p + 1) * p)) eqn:Hh;
  repeat match goal with
         | |- context [if ?b then _ else _] => destruct b
         end;
  intros H; try discriminate H; injection H as H;
  first [ exists (x / p)%Z; split; [lia | split; assumption]
        | exists (x / p + 1)%Z; split; [lia | split; assumption] ].
Qed.

Lemma shortest_from_spec (x D : Z) (ks : list Z) (s k n : Z) :
  shortest_from x D ks = Some (s, k, n) -> In k ks /\ candidate x D k = Some (s, n).
Proof.
  induction ks as [| k' ks IH]; cbn; [discriminate |].
  destruct (candidate x D k') as [[s' n'] |] eqn:Hc.
  - intros [= <- <- <-]; split; [left; reflexivity | exact Hc].
  - intros H; destruct (IH H) as [Hin Hk]; split; [right; exact Hin | exact Hk].
Qed.

Lemma string_app_assoc (a b c : string) : (a ++ b) ++ c = a ++ (b ++ c).
Proof. induction a as [| ch a IH]; cbn; [reflexivity | rewrite IH; reflexivity]. Qed.

Lemma string_app_nil_r (a : string) : a ++ "" = a.
Proof. induction a as [| ch a IH]; cbn; [reflexivity | rewrite IH; reflexivity]. Qed.

Lemma zeros_snoc (m : nat) : zeros m ++ "0" = "0" ++ zeros m.
Proof. induction m as [| m IH]; cbn; [reflexivity | rewrite IH; reflexivity]. Qed.

Lemma pow10_succ (f : nat) : (10 ^ Z.of_nat (S f) = 10 * 10 ^ Z.of_nat f)%Z.
Proof. rewrite Nat2Z.inj_succ, Z.pow_succ_r by lia; reflexivity. Qed.

Lemma digit_fuel_enough (z : Z) : (0 < z)%Z -> (z < 10 ^ Z.of_nat (digit_fuel z))%Z.
Proof.
  intros Hz; unfold digit_fuel.
  rewrite Nat2Z.inj_succ, Z2Nat.id by (apply Z.log2_nonneg).
  destruct (Z.log2_spec z Hz) as [_ H].
  eapply Z.lt_le_trans; [exact H |].
  apply Z.pow_le_mono_l; pose proof (Z.log2_nonneg z); lia.
Qed.

Lemma digits_fuel_indep (f1 f2 : nat) (z : Z) :
  (0 < z)%Z -> (z < 10 ^ Z.of_nat f1)%Z -> (z < 10 ^ Z.of_nat f2)%Z ->
  digits_fuel f1 z = digits_fuel f2 z.
Proof.
  revert f2 z; induction f1 as [| f1 IH]; intros [| f2] z Hz H1 H2;
    try (cbn in H1; lia); try (cbn in H2; lia).
  cbn [digits_fuel].
  destruct (Z.ltb_spec z 10); [reflexivity |].
  rewrite pow10_succ in H1, H2.
  rewrite (IH f2 (z / 10)%Z); [reflexivity | | |].
  - apply Z.div_str_pos; lia.
  - apply Z.div_lt_upper_bound; lia.
  - apply Z.div_lt_upper_bound; lia.
Qed.

Lemma ndigits_fuel_bound (f : nat) (z : Z) :
  (0 < z)%Z -> (z < 10 ^ Z.of_nat f)%Z ->
  (1 <= ndigits_fuel f z)%Z /\ (10 ^ (ndigits_fuel f z - 1) <= z)%Z.
Proof.
  revert z; induction f as [| f IH]; intros z Hz H; [cbn in H; lia |].
  cbn [ndigits_fuel].
  destruct (Z.ltb_spec z 10); [cbn; lia |].
  rewrite pow10_succ in H.
  destruct (IH (z / 10)%Z) as [H1 H2].
  - apply Z.div_str_pos; lia.
  - apply Z.div_lt_upper_bound; lia.
  - split; [lia |].
    replace (1 + ndigits_fuel f (z / 10) - 1)%Z with (Z.succ (ndigits_fuel f (z / 10) - 1)) by lia.
    rewrite Z.pow_succ_r by lia.
    pose proof (Z.mul_div_le z 10); lia.
Qed.

Lemma digits_fuel_S (f : nat) (z : Z) :
  digits_fuel (S f) z = if (z <? 10)%Z then digit z else digits_fuel f (z / 10) ++ digit (z mod 10).
Proof. reflexivity. Qed.

Lemma decimal_pos_times10 (t : Z) :
  (0 < t)%Z -> decimal_pos (t * 10) = decimal_pos t ++ "0".
Proof.
  intros Ht; unfold decimal_pos.
  pose proof (digit_fuel_enough (t * 10) ltac:(lia)) as Hf.
  unfold digit_fuel in Hf |- *; rewrite (digits_fuel_S (Z.to_nat (Z.log2 (t * 10)))).
  destruct (Z.ltb_spec (t * 10) 10); [lia |].
  rewrite Z.div_mul, Z_mod_mult by lia.
  rewrite pow10_succ in Hf.
  f_equal.
  apply digits_fuel_indep; [exact Ht | lia |].
  apply (digit_fuel_enough t Ht).
Qed.

Lemma decimal_pos_shift (s : Z) (m : nat) :
  (0 < s)%Z -> decimal_pos (s * 10 ^ Z.of_nat m) = decimal_pos s ++ zeros m.
Proof.
  intros Hs; induction m as [| m IH].
  - change (Z.of_nat 0) with 0%Z; rewrite Z.pow_0_r, Z.mul_1_r; cbn [zeros].
    symmetry; apply string_app_nil_r.
  - rewrite pow10_succ.
    replace (s * (10 * 10 ^ Z.of_nat m))%Z with (s * 10 ^ Z.of_nat m * 10)%Z by ring.
    rewrite decimal_pos_times10 by (pose proof (Z.pow_pos_nonneg 10 (Z.of_nat m)); nia).
    rewrite IH, string_app_assoc, zeros_snoc; reflexivity.
Qed.

Lemma shortest_safe (x : Z) :
  (0 < x < 2 ^ 53)%Z ->
  let '(s, k, n) := shortest x in
  (s * 10 ^ (n - k) = x)%Z /\ (0 < s)%Z /\ (k <= n <= 17)%Z.
Proof.
  intros Hx; unfold shortest.
  destruct (ndigits_fuel_bound (digit_fuel x) x ltac:(lia) (digit_fuel_enough x ltac:(lia)))
    as [HD1 HD2].
  fold (ndigits x) in HD1, HD2; set (D := ndigits x) in *.
  assert (HD16 : (D <= 16)%Z).
  { destruct (Z.le_gt_cases D 16) as [| Hgt]; [assumption |].
    assert (10 ^ 16 <= 10 ^ (D - 1))%Z by (apply Z.pow_le_mono_r; lia).
    assert (2 ^ 53 < 10 ^ 16)%Z by reflexivity.
    lia. }
  destruct (shortest_from x D (map Z.of_nat (seq 1 (Z.to_nat D)))) as [[[s k] n] |] eqn:Hs.
  - destruct (shortest_from_spec _ _ _ _ _ _ Hs) as [Hin Hc].
    apply in_map_iff in Hin as [k' [<- Hk']]; apply in_seq in Hk'.
    assert (Hk : (1 <= Z.of_nat k' <= D)%Z) by lia.
    destruct (candidate_spec _ _ _ _ _ Hk HD2 Hc) as [c [Hc0 [Hok Hnorm]]].
    apply cand_ok_exact in Hok; [| lia].
    destruct (cand_norm_value _ _ _ _ _ Hk Hc0 Hnorm) as [Hv [Hs0 Hn]].
    split; [lia | split; [exact Hs0 | lia]].
  - split; [rewrite Z.sub_diag, Z.mul_1_r; reflexivity | lia].
Qed.

Lemma js_pos_to_string_safe (x : Z) :
  (0 < x < 2 ^ 53)%Z -> js_pos_to_string x = decimal_pos x.
Proof.
  intros Hx; pose proof (shortest_safe x Hx) as Hsh.
  unfold js_pos_to_string.
  destruct (shortest x) as [[s k] n]; destruct Hsh as [Hv [Hs Hn]].
  destruct (Z.leb_spec n 21); [| lia].
  rewrite <- decimal_pos_shift by exact Hs.
  rewrite Z2Nat.id by lia; rewrite Hv; reflexivity.
Qed.

Lemma js_safe_integer (z : Z) :
  (Z.abs z < 2 ^ 53)%Z -> js_of_int z = JFin z /\ js_number_to_string (JFin z) = decimal z.
Proof.
  intros Hz; unfold js_of_int, js_number_to_string, decimal.
  destruct (Z.eqb_spec z 0) as [-> | Hz0]; [split; reflexivity |].
  destruct (Z.ltb_spec 0 z) as [Hpos | Hneg].
  - rewrite round_pos_small by lia.
    destruct (Z.ltb_spec z 0); [lia |].
    split; [reflexivity | apply js_pos_to_string_safe; lia].
  - rewrite round_pos_small by lia.
    destruct (Z.ltb_spec z 0); [| lia].
    rewrite Z.opp_involutive, js_pos_to_string_safe by lia.
    split; reflexivity.
Qed.

(** C6 fails as stated: the page subtracts and prints JavaScript numbers.
    With [max_participants] 2^60 and one participant, 2^60 - 1 rounds to
    2^60 and prints as 1152921504606847000; with 10^21 and none, the
    number prints in exponent form. *)
Lemma availability_not_exact_difference :
  map (fun ch => match ch with ECard c => card_availability c | _ => "" end)
      (activities_list (final (fetchActivities (Response 200 (CEntries
         [("Big Hall", Some (mkActivity "" "" (2 ^ 60) ["a@x.com"]));
          ("Stadium", Some (mkActivity "" "" (10 ^ 21) []))]))) page0))
  = [" 1152921504606847000 spots left"; " 1e+21 spots left"] /\
  decimal (2 ^ 60 - 1) = "1152921504606846975" /\
  decimal (10 ^ 21) = "1000000000000000000000".
Proof. split; [vm_compute; reflexivity | split; vm_compute; reflexivity]. Qed.

(** The availability property of one rendered card. *)
Definition availability_ok (p : string * activity) (ch : list_child) : Prop :=
  exists c, ch = ECard c /\
    card_availability c =
    " " ++ js_number_to_string (js_sub_nat (js_of_int (max_participants (snd p)))
                                          (length (participants (snd p))))
        ++ " spots left" /\
    ((Z.abs (max_participants (snd p)) < 2 ^ 53)%Z ->
     (Z.abs (max_participants (snd p) - Z.of_nat (length (participants (snd p)))) < 2 ^ 53)%Z ->
     card_availability c =
     " " ++ decimal (max_participants (snd p) - Z.of_nat (length (participants (snd p))))
         ++ " spots left").

(** C6, as the code does it: the availability text of every rendered
    card is [" " + spotsLeft + " spots left"] where [spotsLeft] is the
    JavaScript number [max_participants - participants.length], printed
    by Number::toString; when [max_participants] and the difference are
    safe integers (absolute value below 2^53) this is the exact
    difference in plain decimal, not clamped at zero. *)
Theorem rendered_availability_js (st : Z) (cat : catalog) (s : state) :
  ok st = true ->
  Forall2 availability_ok
    cat (activities_list (final (fetchActivities (Response st (CEntries (catalog_entries cat)))) s)).
Proof.
  intros _; unfold final; rewrite fetch_catalog_run; cbn.
  apply Forall2_cards_of; intros [n d]; unfold availability_ok; cbn.
  exists (card_of n d); split; [reflexivity | split; [reflexivity |]].
  intros Hmax Hdiff; unfold card_of; cbn [card_availability].
  rewrite (proj1 (js_safe_integer _ Hmax)); cbn [js_sub_nat].
  rewrite (proj1 (js_safe_integer _ Hdiff)), (proj2 (js_safe_integer _ Hdiff)).
  reflexivity.
Qed.

Lemma rendered_availability_js_witness :
  ok 200 = true /\
  Forall2 availability_ok
    [("Gym", mkActivity "" "" 1 ["a"; "b"; "c"])]
    (activities_list (final (fetchActivities (Response 200 (CEntries (catalog_entries [("Gym", mkActivity "" "" 1 ["a"; "b"; "c"])])))) page0)).
Proof.
  split; [reflexivity |].
  apply (rendered_availability_js 200 [("Gym", mkActivity "" "" 1 ["a"; "b"; "c"])] page0); reflexivity.
Defined.

(** ** Loads that fail, and runs of loads *)

Definition entry_throws (e : entry) : bool :=
  match snd e with None => true | Some _ => false end.

Lemma forEach_render_throws (es : list entry) (s : state) :
  existsb entry_throws es = true ->
  exists s' eff, forEach render_entry es s = (Throw "TypeError", s', eff).
Proof.
  revert s; induction es as [| [n [d |]] es IH]; intros s H; cbn in H.
  - discriminate.
  - destruct (IH (mkState (activities_list s ++ [ECard (card_of n d)])%list
                          (select_options s ++ [mkOption n n])%list (message_div s)) H)
      as [s' [eff Heq]].
    exists s', eff; cbn; unfold bind; cbn.
    rewrite Heq; reflexivity.
  - exists s, []; reflexivity.
Qed.

Lemma entries_no_throw (es : list entry) :
  existsb entry_throws es = false -> exists cat, es = catalog_entries cat.
Proof.
  induction es as [| [n [d |]] es IH]; cbn; intros H.
  - exists []; reflexivity.
  - destruct (IH H) as [cat ->]; exists ((n, d) :: cat); reflexivity.
  - discriminate.
Qed.

Lemma fetch_fails_list (r : response catalog_body) (s : state) :
  catalog_load_fails r = true ->
  activities_list (final (fetchActivities r) s) = [EFailureNotice].
Proof.
  intros H; destruct r as [| st [| | es]]; try reflexivity.
  cbn in H; fold entry_throws in H.
  destruct (forEach_render_throws es (mkState [] [] (message_div s)) H) as [s' [eff Heq]].
  unfold final, run, fetchActivities, try_catch, bind; cbn.
  rewrite Heq; reflexivity.
Qed.

Lemma fetch_list_history_free (r : response catalog_body) (s1 s2 : state) :
  activities_list (final (fetchActivities r) s1) = activities_list (final (fetchActivities r) s2).
Proof.
  destruct (catalog_load_fails r) eqn:Hf.
  - rewrite !fetch_fails_list by exact Hf; reflexivity.
  - destruct r as [| st [| | es]]; try discriminate.
    cbn in Hf; fold entry_throws in Hf.
    destruct (entries_no_throw es Hf) as [cat ->].
    unfold final; rewrite !fetch_catalog_run; reflexivity.
Qed.

Lemma run_fetches_app (rs : list (response catalog_body)) (r : response catalog_body) (s : state) :
  run_fetches (rs ++ [r]) s = final (fetchActivities r) (run_fetches rs s).
Proof.
  revert s; induction rs as [| r' rs IH]; intros s; cbn; [reflexivity | apply IH].
Qed.

(** C2 fails: after a successful load, a load whose request rejects
    replaces the rendered cards with the failure notice. *)
Lemma failed_fetch_hides_prior_snapshot :
  let s1 := final (fetchActivities (Response 200 (CEntries (catalog_entries [("Chess Club", chess)])))) page0 in
  let s2 := final (fetchActivities NetworkError) s1 in
  activities_list s1 = cards_of [("Chess Club", chess)] /\
  activities_list s2 = [EFailureNotice] /\
  activities_list s2 <> activities_list s1.
Proof.
  cbn; split; [reflexivity | split; [reflexivity | discriminate]].
Qed.

(** C2, as the code does it: after any sequence of loads, the list area
    depends on the last load alone; when that load received a 2xx
    response carrying a catalog, it shows exactly that catalog's cards,
    and when it failed (request rejected, body unparsable or [null], or
    an entry whose card cannot be built) it shows only the failure
    notice, whatever earlier loads displayed. *)
Theorem catalog_list_follows_last_load
        (s : state) (rs : list (response catalog_body)) (r : response catalog_body) :
  (forall s', activities_list (run_fetches (rs ++ [r]) s) =
              activities_list (final (fetchActivities r) s')) /\
  (catalog_load_fails r = true ->
   activities_list (run_fetches (rs ++ [r]) s) = [EFailureNotice]) /\
  (forall st cat, ok st = true -> r = Response st (CEntries (catalog_entries cat)) ->
   activities_list (run_fetches (rs ++ [r]) s) = cards_of cat).
Proof.
  rewrite run_fetches_app; split; [| split].
  - intros s'; apply fetch_list_history_free.
  - apply fetch_fails_list.
  - intros st cat _ ->; unfold final; rewrite fetch_catalog_run; reflexivity.
Qed.

Lemma catalog_list_follows_last_load_witness :
  catalog_load_fails NetworkError = true /\
  activities_list (run_fetches [Response 200 (CEntries (catalog_entries [("Chess Club", chess)])); NetworkError] page0)
  = [EFailureNotice] /\
  activities_list (run_fetches [NetworkError; Response 200 (CEntries (catalog_entries [("Chess Club", chess)]))] page0)
  = cards_of [("Chess Club", chess)].
Proof.
  split; [reflexivity | split].
  - apply (proj1 (proj2 (catalog_list_follows_last_load page0
             [Response 200 (CEntries (catalog_entries [("Chess Club", chess)]))] NetworkError))).
    reflexivity.
  - apply (proj2 (proj2 (catalog_list_follows_last_load page0 [NetworkError]
             (Response 200 (CEntries (catalog_entries [("Chess Club", chess)]))))) 200%Z);
      reflexivity.
Defined.

(** C3 (defect): [fetchActivities] never reads [response.ok]; a non-2xx
    answer whose body is a JSON object is rendered like a catalog.  With
    the body [{}] and status 500 the list is emptied, no failure notice
    is shown and nothing is logged. *)
Theorem fetch_ignores_status :
  (forall st b s, run (fetchActivities (Response st b)) s = run (fetchActivities (Response 200 b)) s) /\
  run (fetchActivities (Response 500 (CEntries [])))
      (final (fetchActivities (Response 200 (CEntries (catalog_entries [("Chess Club", chess)])))) page0)
  = (mkState [] [] (message_div page0), [ERemote "GET" "" ""]).
Proof.
  split; [| reflexivity].
  intros st b s; reflexivity.
Qed.

(** ** The sign-up handler *)

(** The sign-up responses that reach the success branch. *)
Definition signup_succeeds (r : response result_body) : bool :=
  match r with
  | Response st (RObj _ _) => ok st
  | _ => false
  end.

(** Case analysis on a response to a mutating request, down to the
    fields the handlers read. *)
Ltac response_cases r :=
  destruct r as [| ?st [| | [?m |] [?d |]]];
  cbn;
  repeat match goal with
         | |- context [ok ?st] => destruct (ok st)
         | |- context [String.eqb ?x ""] => destruct (String.eqb x "")
         end;
  cbn.

(** C4 fails: a 2xx answer whose body does not parse as JSON lands in
    the [catch] branch, which neither resets the form nor reloads. *)
Lemma signup_2xx_unparsable_no_reload :
  let es := effects (submitSignup "e@x.com" "Chess Club" (Response 201 RUnparsable)) page0 in
  ok 201 = true /\ count is_reset es = 0%nat /\ count is_load es = 0%nat.
Proof. repeat split; reflexivity. Qed.

(** C4, as the code does it: a sign-up whose 2xx response carries a
    parsable, non-null JSON body resets the form once and calls
    [fetchActivities] once; every other sign-up (non-2xx, rejected
    request, unparsable or [null] body) does neither. *)
Theorem signup_reset_and_reload (email activity : string) (r : response result_body) (s : state) :
  let es := effects (submitSignup email activity r) s in
  count is_reset es = (if signup_succeeds r then 1 else 0)%nat /\
  count is_load es = (if signup_succeeds r then 1 else 0)%nat.
Proof.
  unfold effects, run, submitSignup, try_catch, bind; response_cases r;
    split; reflexivity.
Qed.

(** C8 fails: when the request rejects, the message is shown but no
    hide timer is armed. *)
Lemma signup_network_error_no_timer :
  msg_visible (message_div (final (submitSignup "e@x.com" "Chess Club" NetworkError) page0)) = true /\
  timers (effects (submitSignup "e@x.com" "Chess Club" NetworkError) page0) = [].
Proof. split; reflexivity. Qed.

(** C8, as the code does it: every sign-up leaves the message visible;
    the 5-second hide timer is armed exactly when the response body
    parses as a JSON value other than [null], whatever the status, and
    not when the request rejects or the body is unparsable or [null]. *)
Theorem signup_message_and_timer (email activity : string) (r : response result_body) (s : state) :
  msg_visible (message_div (final (submitSignup email activity r) s)) = true /\
  timers (effects (submitSignup email activity r) s) =
  (if signup_reaches_branch r then [5000%Z] else []).
Proof.
  unfold final, effects, run, submitSignup, try_catch, bind; response_cases r;
    split; reflexivity.
Qed.

(** ** The unregister handler *)

(** C7: when the user declines the confirmation, [handleDelete] issues
    no request and leaves the whole page, the message included,
    unchanged. *)
Theorem declined_unregister_is_silent (btn : delete_btn) (r : response result_body) (s : state) :
  run (handleDelete btn false r) s = (s, []) /\
  count is_remote (effects (handleDelete btn false r) s) = 0%nat /\
  message_div (final (handleDelete btn false r) s) = message_div s.
Proof. split; [reflexivity | split; reflexivity]. Qed.

Lemma unregister_effects_timers (btn : delete_btn) (r : response result_body) (s : state) :
  timers (effects (handleDelete btn true r) s) =
  (if unregister_succeeds r then [3000%Z] else []) /\
  (unregister_succeeds r = false -> msg_visible (message_div (final (handleDelete btn true r) s)) = true).
Proof.
  unfold final, effects, run, handleDelete, try_catch, bind; response_cases r;
    split; (reflexivity || (intros; reflexivity) || discriminate).
Qed.

Lemma filter_due_none (l : list Z) (t : Z) :
  (forall d, In d l -> (t < d)%Z) -> filter (fun d => d <=? t)%Z l = [].
Proof.
  induction l as [| d l IH]; intros H; cbn; [reflexivity |].
  destruct (Z.leb_spec d t) as [Hle | _].
  - specialize (H d (or_introl eq_refl)); lia.
  - apply IH; intros d' Hd'; apply H; right; exact Hd'.
Qed.

(** ** Hide timers over time *)

(** C9: a sign-up at time 0 arms a hide callback due at 5000; an
    unregister at 4000 shows its own message and arms one due at 7000.
    At 5000 the first callback hides the second action's message, while
    that action's own callback is still pending. *)
Theorem earlier_timer_hides_later_message :
  exists (w0 : world) (u1 u2 : user_action) (t1 t2 d1 d2 : Z),
    let w1 := act u1 w0 in
    let w2 := act u2 (advance t1 w1) in
    let w3 := advance t2 w2 in
    pending w0 = [] /\ pending w1 = [d1] /\ pending w2 = [d1; d2] /\
    msg_visible (message_div (page w2)) = true /\
    msg_text (message_div (page w2)) <> msg_text (message_div (page w1)) /\
    (d1 <= t2 < d2)%Z /\
    msg_text (message_div (page w3)) = msg_text (message_div (page w2)) /\
    msg_visible (message_div (page w3)) = false /\
    pending w3 = [d2].
Proof.
  exists (mkWorld 0 page0 []),
         (Submit "e@x.com" "Chess Club" (Response 200 (RObj (Some "Signed up!") None))),
         (ClickDelete (mkBtn "Chess Club" "a@x.com") true
                      (Response 200 (RObj (Some "Unregistered a@x.com") None))),
         4000%Z, 5000%Z, 5000%Z, 7000%Z.
  cbn; repeat split; try reflexivity; try lia.
  discriminate.
Qed.

(** C10 fails as stated: the error message of a failed unregister can
    be hidden with no later action, by the hide callback of an earlier
    sign-up. *)
Lemma earlier_timer_hides_unregister_error :
  let w1 := act (Submit "e@x.com" "Chess Club" (Response 200 (RObj (Some "Signed up!") None)))
                (mkWorld 0 page0 []) in
  let w2 := act (ClickDelete (mkBtn "Chess Club" "a@x.com") true
                             (Response 400 (RObj None (Some "Not registered"))))
                (advance 1000 w1) in
  let w3 := advance 5000 w2 in
  msg_text (message_div (page w2)) = "Not registered" /\
  msg_visible (message_div (page w2)) = true /\
  msg_text (message_div (page w3)) = "Not registered" /\
  msg_visible (message_div (page w3)) = false.
Proof. cbn; repeat split. Qed.

(** C10, as the code does it: a failed unregister (non-2xx, rejected
    request, unparsable or [null] body) shows its error message and arms
    no hide timer, so the message stays visible as long as no later
    action runs and no callback armed earlier comes due; only the
    success path arms a timer, of 3 seconds. *)
Theorem failed_unregister_arms_no_timer (btn : delete_btn) (r : response result_body) :
  (forall s, timers (effects (handleDelete btn true r) s) =
             (if unregister_succeeds r then [3000%Z] else [])) /\
  (forall (w : world) (t : Z),
     unregister_succeeds r = false ->
     (forall d, In d (pending w) -> (t < d)%Z) ->
     msg_visible (message_div (page (advance t (act (ClickDelete btn true r) w)))) = true).
Proof.
  split.
  - intros s; apply unregister_effects_timers.
  - intros w t Hfail Hdue.
    destruct (unregister_effects_timers btn r (page w)) as [Ht Hv].
    rewrite Hfail in Ht.
    unfold act, advance; cbn [handler_of].
    unfold effects in Ht; unfold final in Hv.
    destruct (run (handleDelete btn true r) (page w)) as [s' es] eqn:Hrun; cbn in *.
    rewrite Ht, app_nil_r, filter_due_none by exact Hdue; cbn.
    exact (Hv Hfail).
Qed.

Lemma failed_unregister_arms_no_timer_witness :
  unregister_succeeds (Response 400 (RObj None (Some "Not registered"))) = false /\
  msg_visible (message_div (page (advance 100000
    (act (ClickDelete (mkBtn "Chess Club" "a@x.com") true (Response 400 (RObj None (Some "Not registered"))))
         (mkWorld 0 page0 []))))) = true.
Proof.
  split; [reflexivity |].
  apply (proj2 (failed_unregister_arms_no_timer (mkBtn "Chess Club" "a@x.com")
                  (Response 400 (RObj None (Some "Not registered")))) (mkWorld 0 page0 []) 100000%Z).
  - reflexivity.
  - intros d [].
Defined.

(** ** Further properties of the handlers *)

(** The well-formed entries before the first one whose card construction
    throws: the ones [forEach] renders. *)
Fixpoint rendered_prefix (es : list entry) : catalog :=
  match es with
  | [] => []
  | (n, Some d) :: es' => (n, d) :: rendered_prefix es'
  | (_, None) :: _ => []
  end.

Lemma forEach_render_entries (es : list entry) (s : state) :
  forEach render_entry es s =
  (if existsb entry_throws es then Throw "TypeError" else Ok tt,
   mkState (activities_list s ++ cards_of (rendered_prefix es))%list
           (select_options s ++ options_of (rendered_prefix es))%list
           (message_div s), []).
Proof.
  revert s; induction es as [| [n [d |]] es IH]; intros s; cbn.
  - destruct s; cbn; rewrite !app_nil_r; reflexivity.
  - unfold bind; cbn; rewrite IH; cbn.
    rewrite <- !app_assoc; reflexivity.
  - destruct s; cbn; rewrite !app_nil_r; reflexivity.
Qed.

Lemma fetch_entries_run (st : Z) (es : list entry) (s : state) :
  run (fetchActivities (Response st (CEntries es))) s =
  (mkState (if existsb entry_throws es then [EFailureNotice] else cards_of (rendered_prefix es))
           (options_of (rendered_prefix es)) (message_div s),
   ERemote "GET" "" "" :: (if existsb entry_throws es then [ELog "Error fetching activities:"] else [])).
Proof.
  unfold run, fetchActivities, try_catch, bind; cbn.
  rewrite forEach_render_entries; cbn.
  destruct (existsb entry_throws es); reflexivity.
Qed.

Lemma rendered_prefix_stops (cat : catalog) (n : string) (rest : list entry) :
  rendered_prefix (catalog_entries cat ++ (n, None) :: rest)%list = cat /\
  existsb entry_throws (catalog_entries cat ++ (n, None) :: rest)%list = true.
Proof.
  unfold catalog_entries; induction cat as [| [n' d] cat [IH1 IH2]]; cbn; [split; reflexivity |].
  rewrite IH1, IH2; split; reflexivity.
Qed.

(** Case analysis on a catalog response, reduced with [fetch_entries_run]. *)
Ltac fetch_cases r :=
  destruct r as [| ?st [| | ?es]];
  unfold final, effects;
  [ cbn | cbn | cbn | rewrite ?fetch_entries_run; cbn; fold entry_throws ].

(** [fetchActivities] never touches [#message], whatever the response. *)
Theorem fetch_keeps_message (r : response catalog_body) (s : state) :
  message_div (final (fetchActivities r) s) = message_div s.
Proof.
  fetch_cases r; reflexivity.
Qed.

(** [fetchActivities] issues exactly one [GET /activities] and writes one
    console record exactly when the load fails. *)
Theorem fetch_effects (r : response catalog_body) (s : state) :
  effects (fetchActivities r) s =
  ERemote "GET" "" "" :: (if catalog_load_fails r then [ELog "Error fetching activities:"] else []).
Proof.
  fetch_cases r; reflexivity.
Qed.

(** When the request rejects or the body does not parse, the failure
    notice replaces the list but the options of the select, filled by an
    earlier load, are left in place. *)
Theorem fetch_rejected_keeps_options (r : response catalog_body) (s : state) :
  (r = NetworkError \/ exists st, r = Response st CUnparsable) ->
  activities_list (final (fetchActivities r) s) = [EFailureNotice] /\
  select_options (final (fetchActivities r) s) = select_options s.
Proof.
  intros [-> | [st ->]]; split; reflexivity.
Qed.

Lemma fetch_rejected_keeps_options_witness :
  let s1 := final (fetchActivities (Response 200 (CEntries (catalog_entries [("Chess Club", chess)])))) page0 in
  (NetworkError = @NetworkError catalog_body \/ exists st, @NetworkError catalog_body = Response st CUnparsable) /\
  select_options (final (fetchActivities NetworkError) s1) = [mkOption "Chess Club" "Chess Club"].
Proof.
  cbv zeta; split; [left; reflexivity |].
  rewrite (proj2 (fetch_rejected_keeps_options NetworkError _ (or_introl eq_refl))).
  reflexivity.
Defined.

(** A body whose entries are well formed up to one on which the card
    construction throws: the select keeps the options of the entries
    before it, while the list shows only the failure notice. *)
Theorem fetch_partial_render (st : Z) (cat : catalog) (n : string) (rest : list entry) (s : state) :
  let s' := final (fetchActivities (Response st (CEntries (catalog_entries cat ++ (n, None) :: rest)%list))) s in
  activities_list s' = [EFailureNotice] /\ select_options s' = options_of cat.
Proof.
  cbv zeta; unfold final; rewrite fetch_entries_run; cbn [activities_list select_options].
  destruct (rendered_prefix_stops cat n rest) as [H1 H2]; rewrite H1, H2; split; reflexivity.
Qed.

(** Loading twice with the same answer gives the page of one load: each
    load rebuilds the list and the select, it never patches them. *)
Theorem fetch_idempotent (r : response catalog_body) (s : state) :
  final (fetchActivities r) (final (fetchActivities r) s) = final (fetchActivities r) s.
Proof.
  fetch_cases r; reflexivity.
Qed.

(** The mutating handlers never touch [#activities-list] or the select:
    the catalog is only refreshed by the [fetchActivities()] they start. *)
Theorem handlers_keep_catalog (btn : delete_btn) (confirmed : bool) (email activity : string)
        (r : response result_body) (s : state) :
  activities_list (final (handleDelete btn confirmed r) s) = activities_list s /\
  select_options (final (handleDelete btn confirmed r) s) = select_options s /\
  activities_list (final (submitSignup email activity r) s) = activities_list s /\
  select_options (final (submitSignup email activity r) s) = select_options s.
Proof.
  destruct confirmed;
    unfold final, run, handleDelete, submitSignup, try_catch, bind; response_cases r;
    repeat split.
Qed.

(** A confirmed unregister sends exactly one request, first, the
    [DELETE] for the button's [data-activity] and [data-email]; it starts
    one catalog load on success, none otherwise, and writes a console
    record exactly when it ends in the [catch] branch. *)
Theorem unregister_requests (btn : delete_btn) (r : response result_body) (s : state) :
  let es := effects (handleDelete btn true r) s in
  hd_error es = Some (ERemote "DELETE" (data_activity btn) (data_email btn)) /\
  count is_remote es = 1%nat /\
  count is_load es = (if unregister_succeeds r then 1 else 0)%nat /\
  count is_log es = (if signup_reaches_branch r then 0 else 1)%nat.
Proof.
  unfold effects, run, handleDelete, try_catch, bind; response_cases r;
    repeat split.
Qed.

(** A sign-up sends exactly one request, first, the [POST] for the
    selected activity and the typed email, and writes a console record
    exactly when it ends in the [catch] branch. *)
Theorem signup_requests (email activity : string) (r : response result_body) (s : state) :
  let es := effects (submitSignup email activity r) s in
  hd_error es = Some (ERemote "POST" activity email) /\
  count is_remote es = 1%nat /\
  count is_log es = (if signup_reaches_branch r then 0 else 1)%nat.
Proof.
  unfold effects, run, submitSignup, try_catch, bind; response_cases r;
    repeat split.
Qed.

(** After a sign-up, and after a confirmed unregister, [#message] is
    visible with the single class [success] when the request succeeded
    and [error] otherwise. *)
Theorem handlers_message_class (btn : delete_btn) (email activity : string)
        (r : response result_body) (s : state) :
  msg_classes (message_div (final (submitSignup email activity r) s)) =
  [if signup_succeeds r then "success" else "error"] /\
  msg_classes (message_div (final (handleDelete btn true r) s)) =
  [if unregister_succeeds r then "success" else "error"] /\
  msg_visible (message_div (final (handleDelete btn true r) s)) = true.
Proof.
  unfold final, run, handleDelete, submitSignup, try_catch, bind; response_cases r;
    repeat split.
Qed.

(** A non-2xx answer with a JSON object body shows its [detail] when it
    is a non-empty string, and the handler's fixed fallback when it is
    absent or empty. *)
Theorem error_detail_fallback (btn : delete_btn) (email activity : string) (st : Z)
        (m d : option string) (s : state) :
  ok st = false ->
  let signup_text := msg_text (message_div (final (submitSignup email activity (Response st (RObj m d))) s)) in
  let delete_text := msg_text (message_div (final (handleDelete btn true (Response st (RObj m d))) s)) in
  ((d = None \/ d = Some "") ->
   signup_text = "An error occurred" /\ delete_text = "Failed to unregister") /\
  (forall x, d = Some x -> x <> "" -> signup_text = x /\ delete_text = x).
Proof.
  intros Hst; cbv zeta.
  unfold final, run, handleDelete, submitSignup, try_catch, bind; cbn; rewrite Hst; cbn.
  split.
  - intros [-> | ->]; split; reflexivity.
  - intros x -> Hx; apply String.eqb_neq in Hx; cbn; rewrite Hx; split; reflexivity.
Qed.

Lemma error_detail_fallback_witness :
  ok 400 = false /\
  msg_text (message_div (final (submitSignup "e@x.com" "Chess Club" (Response 400 (RObj None (Some "")))) page0))
  = "An error occurred" /\
  msg_text (message_div (final (handleDelete (mkBtn "Chess Club" "e@x.com") true
                                  (Response 400 (RObj None (Some "Not registered")))) page0))
  = "Not registered".
Proof.
  split; [reflexivity | split].
  - apply (proj1 (error_detail_fallback (mkBtn "Chess Club" "e@x.com") "e@x.com" "Chess Club" 400
                    None (Some "") page0 eq_refl) (or_intror eq_refl)).
  - apply (proj2 (error_detail_fallback (mkBtn "Chess Club" "e@x.com") "e@x.com" "Chess Club" 400
                    None (Some "Not registered") page0 eq_refl) "Not registered" eq_refl).
    discriminate.
Defined.
